(** * A push-based Observable with Observer-mediated subscription

    Shallow embedding of the TypeScript classes [Observer] and [Observable],
    after the generic variant.  The [any]-typed variant has the same method
    bodies and a public constructor for [Observable]; the earliest variant
    has class [Observer] alone, without [setUnsubscribe].

    JavaScript objects are mutable and passed by reference, so Observers live
    in a heap indexed by references and every method is a computation over
    the program state.  Callbacks supplied from outside (the three handlers
    and the teardown) are host code: they act on the world outside the
    Observers and may throw.  A callback that calls back into an Observer
    is outside this model; a producer does hold its Observer and is a
    computation over the whole state. *)

From Stdlib Require Import String ZArith Lia.
From stdpp Require Import base list.

Set Implicit Arguments.
Set Default Proof Using "Type".

(** ** Completions and the state monad *)

(** How a JavaScript call ends: it returns, or it throws. *)
Inductive completion (Err A : Type) : Type :=
| Normal (a : A)
| Thrown (x : Err).
Arguments Normal {Err A} a.
Arguments Thrown {Err A} x.

(** The world outside the Observers: the console, and whatever mutable
    environment [U] the consumer's callbacks close over. *)
Record World (U : Type) : Type := { console : list string; store : U }.

(** A zero-argument JavaScript function [() => void]: it may change the
    world, and it may throw after having changed it. *)
Definition Callback (Err U : Type) : Type :=
  World U -> completion Err unit * World U.

(** [console.log(msg)] *)
Definition console_log {Err U} (msg : string) : Callback Err U :=
  fun w => (Normal tt, {| console := console w ++ [msg]; store := store w |}).

(** An object reference. *)
Abbreviation ref := nat.

Section Core.
Variables T Err U : Type.

Abbreviation Callback := (Callback Err U).
Abbreviation World := (World U).

(** interface IObserverHandlers<T>: three optional callbacks.  ([subscribe]
    takes a [Partial<IObserver<T>>], whose fourth optional member
    [unsubscribe] no method ever reads.) *)
Record IObserverHandlers : Type := {
  next : option (T -> Callback);
  error : option (Err -> Callback);
  complete : option Callback
}.

(** class Observer<T>: its three private fields. *)
Record Observer : Type := {
  handlers : IObserverHandlers;
  isUnsubscribed : bool;
  _unsubscribe : option Callback
}.

Record State : Type := { heap : list Observer; world : World }.

(** A computation over the program state.  The answer [None] is not a
    JavaScript outcome: it is what the model gives when a reference that
    was never allocated is dereferenced, which no source program can do. *)
Definition M (A : Type) : Type := State -> option (completion Err A * State).

Definition ret {A} (a : A) : M A := fun s => Some (Normal a, s).

Definition throw {A} (x : Err) : M A := fun s => Some (Thrown x, s).

(** Sequencing: a throw skips the rest, and what was mutated before the
    throw stays mutated. *)
Definition bind {A B} (m : M A) (k : A -> M B) : M B :=
  fun s =>
    match m s with
    | Some (Normal a, s') => k a s'
    | Some (Thrown x, s') => Some (Thrown x, s')
    | None => None
    end.

(** Calling host code from a method. *)
Definition call (f : Callback) : M unit :=
  fun s =>
    let (c, w) := f (world s) in Some (c, {| heap := heap s; world := w |}).

(** Reading the object behind a reference. *)
Definition deref (this : ref) : M Observer :=
  fun s =>
    match heap s !! this with
    | Some o => Some (Normal o, s)
    | None => None
    end.

(** Assigning to fields of the object behind a reference. *)
Definition assign (this : ref) (f : Observer -> Observer) : M unit :=
  fun s =>
    match heap s !! this with
    | Some o =>
        Some (Normal tt, {| heap := <[this := f o]> (heap s); world := world s |})
    | None => None
    end.

(** [new]: the object gets a reference no live object has. *)
Definition alloc (o : Observer) : M ref :=
  fun s =>
    Some (Normal (length (heap s)),
          {| heap := heap s ++ [o]; world := world s |}).

(** [this.isUnsubscribed = b] and [this._unsubscribe = f] on the record. *)
Definition set_isUnsubscribed (b : bool) (o : Observer) : Observer :=
  {| handlers := handlers o; isUnsubscribed := b;
     _unsubscribe := _unsubscribe o |}.

Definition set__unsubscribe (f : option Callback) (o : Observer) : Observer :=
  {| handlers := handlers o; isUnsubscribed := isUnsubscribed o;
     _unsubscribe := f |}.

Notation "'let!' x ':=' m 'in' k" := (bind m (fun x => k))
  (at level 10, x name, m at level 100, k at level 200).
Notation "m ;; k" := (bind m (fun _ => k))
  (at level 100, k at level 200, right associativity).

(** ** class Observer *)

(** constructor(handlers): the fields of the new object.  [_unsubscribe]
    is not assigned, so it reads as [undefined]. *)
Definition Observer_constructor (handlers : IObserverHandlers) : Observer :=
  {| handlers := handlers; isUnsubscribed := false; _unsubscribe := None |}.

(** new Observer(handlers) *)
Definition Observer_new (handlers : IObserverHandlers) : M ref :=
  alloc (Observer_constructor handlers).

(** next(value) *)
Definition Observer_next (this : ref) (value : T) : M unit :=
  let! o := deref this in
  match next (handlers o) with
  | Some handler =>
      if negb (isUnsubscribed o) then call (handler value) else ret tt
  | None => ret tt
  end.

(** unsubscribe() *)
Definition Observer_unsubscribe (this : ref) : M unit :=
  assign this (set_isUnsubscribed true) ;;
  let! o := deref this in
  match _unsubscribe o with
  | Some teardown => call teardown
  | None => ret tt
  end.

(** error(error) *)
Definition Observer_error (this : ref) (err : Err) : M unit :=
  let! o := deref this in
  if negb (isUnsubscribed o) then
    match error (handlers o) with
    | Some handler => call (handler err)
    | None => ret tt
    end ;;
    Observer_unsubscribe this
  else ret tt.

(** complete() *)
Definition Observer_complete (this : ref) : M unit :=
  let! o := deref this in
  if negb (isUnsubscribed o) then
    match complete (handlers o) with
    | Some handler => call handler
    | None => ret tt
    end ;;
    Observer_unsubscribe this
  else ret tt.

(** setUnsubscribe(unsubscribeFn?) *)
Definition Observer_setUnsubscribe (this : ref) (unsubscribeFn : option Callback) : M unit :=
  assign this (set__unsubscribe unsubscribeFn).

(** ** class Observable *)

(** What a producer can hand back to [subscribe]: its declared type is
    [(() => void) | void], and [subscribe] inspects the value at run time. *)
Inductive JsValue : Type :=
| JsUndefined
| JsNull
| JsBoolean (b : bool)
| JsNumber (n : Z)
| JsString (s : string)
| JsObject
| JsFunction (f : Callback).

(** The [typeof] operator. *)
Definition typeof (v : JsValue) : string :=
  match v with
  | JsUndefined => "undefined"
  | JsNull => "object"
  | JsBoolean _ => "boolean"
  | JsNumber _ => "number"
  | JsString _ => "string"
  | JsObject => "object"
  | JsFunction _ => "function"
  end.

(** [typeof v === "function" ? v : undefined] *)
Definition function_or_undefined (v : JsValue) : option Callback :=
  if String.eqb (typeof v) "function" then
    match v with JsFunction f => Some f | _ => None end
  else None.

(** The producer stored in an Observable: it is handed the Observer and
    may call its methods, run host code, throw, and return a value. *)
Record Observable : Type := {
  _subscribe : ref -> M JsValue
}.

(** [values.forEach(f)] on a dense array. *)
Fixpoint forEach (values : list T) (f : T -> M unit) : M unit :=
  match values with
  | [] => ret tt
  | value :: rest => f value ;; forEach rest f
  end.

(** static from(values) *)
Definition Observable_from (values : list T) : Observable :=
  {| _subscribe := fun observer =>
       forEach values (fun value => Observer_next observer value) ;;
       Observer_complete observer ;;
       ret (JsFunction (console_log "unsubscribed")) |}.

(** The object literal [{ unsubscribe() { observer.unsubscribe(); } }]
    returned by [subscribe]: a closure over the Observer. *)
Record Subscription : Type := { observer : ref }.

(** subscribe(obs) *)
Definition Observable_subscribe (this : Observable) (obs : IObserverHandlers)
  : M Subscription :=
  let! observer := Observer_new obs in
  let! unsubscribeFn := _subscribe this observer in
  Observer_setUnsubscribe observer (function_or_undefined unsubscribeFn) ;;
  ret {| observer := observer |}.

(** subscription.unsubscribe() *)
Definition Subscription_unsubscribe (subscription : Subscription) : M unit :=
  Observer_unsubscribe (observer subscription).

(** ** Clients of an Observer *)

(** One method call on an Observer, as a producer or any other holder of
    the reference can make it. *)
Inductive MethodCall : Type :=
| CallNext (value : T)
| CallError (err : Err)
| CallComplete
| CallUnsubscribe
| CallSetUnsubscribe (unsubscribeFn : option Callback).

Definition invoke (this : ref) (c : MethodCall) : M unit :=
  match c with
  | CallNext value => Observer_next this value
  | CallError err => Observer_error this err
  | CallComplete => Observer_complete this
  | CallUnsubscribe => Observer_unsubscribe this
  | CallSetUnsubscribe f => Observer_setUnsubscribe this f
  end.

(** A client making one call after another, on any Observers, and going
    on after a call that threw (each call in its own [try]/[catch]). *)
Fixpoint history (calls : list (ref * MethodCall)) (s : State) : option State :=
  match calls with
  | [] => Some s
  | (this, c) :: rest =>
      match invoke this c s with
      | Some (_, s') => history rest s'
      | None => None
      end
  end.

(** The three calls that end a subscription.  [unsubscribe] sets the flag
    before it runs anything, [error] and [complete] after the handler
    returned. *)
Definition terminates (c : MethodCall) (result : completion Err unit) : bool :=
  match c, result with
  | CallUnsubscribe, _ => true
  | CallError _, Normal _ => true
  | CallComplete, Normal _ => true
  | _, _ => false
  end.

(** The Observer behind [this] exists and has its flag up. *)
Definition unsubscribed_at (this : ref) (s : State) : Prop :=
  exists o, heap s !! this = Some o /\ isUnsubscribed o = true.

(** [n] calls of the same method in a row. *)
Fixpoint times (n : nat) (m : M unit) : M unit :=
  match n with
  | O => ret tt
  | S k => m ;; times k m
  end.

(** [if (f) f()] as host code. *)
Definition if_present (f : option Callback) : Callback :=
  match f with
  | Some g => g
  | None => fun w => (Normal tt, w)
  end.

(** Host code in sequence. *)
Definition and_then (f g : Callback) : Callback :=
  fun w =>
    match f w with
    | (Normal _, w') => g w'
    | (Thrown x, w') => (Thrown x, w')
    end.

(** What the specification says a subscriber of [from(S)] sees: each
    element of [S] handed to the [next] handler, in order, then the
    [complete] handler once.  (Written from the specification, to be
    compared with [Observable_from] and [Observable_subscribe].) *)
Fixpoint deliver_each (h : IObserverHandlers) (S : list T) : Callback :=
  match S with
  | [] => fun w => (Normal tt, w)
  | v :: rest =>
      and_then (if_present (option_map (fun f => f v) (next h)))
               (deliver_each h rest)
  end.

Definition emissions (h : IObserverHandlers) (S : list T) : Callback :=
  and_then (deliver_each h S) (if_present (complete h)).

(** What the caller and the world outside see of a call: how it ended and
    the world it left. *)
Definition outcome {A} (r : option (completion Err A * State))
  : option (completion Err A * World) :=
  match r with
  | Some (c, s) => Some (c, world s)
  | None => None
  end.

(** The host code that a method call on the Observer [o] runs, read off
    the fields of [o] alone. *)
Definition reaction (o : Observer) (c : MethodCall) : Callback :=
  match c with
  | CallNext v =>
      if isUnsubscribed o then if_present None
      else if_present (option_map (fun h => h v) (next (handlers o)))
  | CallError e =>
      if isUnsubscribed o then if_present None
      else and_then (if_present (option_map (fun h => h e) (error (handlers o))))
                    (if_present (_unsubscribe o))
  | CallComplete =>
      if isUnsubscribed o then if_present None
      else and_then (if_present (complete (handlers o)))
                    (if_present (_unsubscribe o))
  | CallUnsubscribe => if_present (_unsubscribe o)
  | CallSetUnsubscribe _ => if_present None
  end.

(** A producer that keeps to the Observer it is handed: whatever it does,
    the Observers that existed before the run, other than its own, are as
    they were, and none is lost.  Every producer written against the
    methods of its own Observer is of this kind. *)
Definition confined (producer : ref -> M JsValue) : Prop :=
  forall (this : ref) (s s' : State) (c : completion Err JsValue),
    this < length (heap s) ->
    producer this s = Some (c, s') ->
    length (heap s) <= length (heap s') /\
    forall other : ref, other <> this -> other < length (heap s) ->
      heap s' !! other = heap s !! other.

(** A computation that touches no Observer but [this] and creates none:
    what code made of method calls on [this] and host code is. *)
Definition own_only {A} (this : ref) (m : M A) : Prop :=
  forall (s s' : State) (c : completion Err A),
    m s = Some (c, s') ->
    length (heap s') = length (heap s) /\
    forall other : ref, other <> this -> heap s' !! other = heap s !! other.

(** The handler that a call reaches first, applied to the call's argument:
    what [next], [error] and [complete] call when the Observer is live;
    [unsubscribe] and [setUnsubscribe] reach no handler. *)
Definition handler_call (o : Observer) (c : MethodCall) : Callback :=
  match c with
  | CallNext v => if_present (option_map (fun h => h v) (next (handlers o)))
  | CallError e => if_present (option_map (fun h => h e) (error (handlers o)))
  | CallComplete => if_present (complete (handlers o))
  | CallUnsubscribe | CallSetUnsubscribe _ => if_present None
  end.

(** Producer code that makes these calls on its Observer one after another;
    a call that throws ends it. *)
Fixpoint script (this : ref) (calls : list MethodCall) : M unit :=
  match calls with
  | [] => ret tt
  | c :: rest => invoke this c ;; script this rest
  end.

(** The calls a producer emits with. *)
Definition is_emission (c : MethodCall) : bool :=
  match c with
  | CallNext _ | CallError _ | CallComplete => true
  | CallUnsubscribe | CallSetUnsubscribe _ => false
  end.

Definition is_setUnsubscribe (c : MethodCall) : bool :=
  match c with
  | CallSetUnsubscribe _ => true
  | _ => false
  end.

(** The world with more lines on the console. *)
Definition logged (w : World) (lines : list string) : World :=
  {| console := console w ++ lines; store := store w |}.

End Core.

Arguments ret {T Err U A} a _.
Arguments throw {T Err U A} x _.
Arguments Observable_from {T Err U} values.
Arguments JsUndefined {Err U}.
Arguments JsNull {Err U}.
Arguments JsBoolean {Err U} b.
Arguments JsNumber {Err U} n.
Arguments JsString {Err U} s.
Arguments JsObject {Err U}.
Arguments Subscription_unsubscribe {T Err U} subscription _.
Arguments CallNext {T Err U} value.
Arguments CallSetUnsubscribe {T Err U} unsubscribeFn.
Arguments CallComplete {T Err U}.
Arguments CallUnsubscribe {T Err U}.
Arguments CallError {T Err U} err.
Arguments script {T Err U} this calls _.

Notation "'let!' x ':=' m 'in' k" := (bind m (fun x => k))
  (at level 10, x name, m at level 100, k at level 200).
Notation "m ;; k" := (bind m (fun _ => k))
  (at level 100, k at level 200, right associativity).

(** ** The program around the classes *)

Inductive HttpMethod : Type := POST | GET.

Definition HTTP_POST_METHOD : HttpMethod := POST.
Definition HTTP_GET_METHOD : HttpMethod := GET.

Definition HTTP_STATUS_OK : Z := 200.
Definition HTTP_STATUS_INTERNAL_SERVER_ERROR : Z := 500.

Record UserMockType : Type := {
  name : string;
  age : Z;
  roles : list string;
  createdAt : Z;
  isDeleted : bool
}.

(** [createdAt] is [new Date()]: the clock is an input. *)
Definition userMock (now : Z) : UserMockType :=
  {| name := "User Name"; age := 26; roles := ["user"; "admin"]%string;
     createdAt := now; isDeleted := false |}.

Record RequestMockType : Type := {
  method : HttpMethod;
  host : string;
  path : string;
  body : option UserMockType;
  params : list (string * string)
}.

Definition requestsMock (now : Z) : list RequestMockType :=
  [ {| method := HTTP_POST_METHOD; host := "service.example"; path := "user";
       body := Some (userMock now); params := [] |};
    {| method := HTTP_GET_METHOD; host := "service.example"; path := "user";
       body := None; params := [("id", "3f5h67s4s")]%string |} ].

Record Response : Type := { status : Z }.

Definition handleRequest (request : RequestMockType) : Response :=
  {| status := HTTP_STATUS_OK |}.

Definition handleError (error : string) : Response :=
  {| status := HTTP_STATUS_INTERNAL_SERVER_ERROR |}.

Definition handleComplete : Callback string unit := console_log "complete".

(** A pure function passed where a handler is expected: the Observer calls
    it and drops what it returns. *)
Definition discarding {A B Err U} (f : A -> B) : A -> Callback Err U :=
  fun a w => let _ := f a in (Normal tt, w).

Definition requests' (now : Z) : Observable RequestMockType string unit :=
  Observable_from (requestsMock now).

(** The statements at the end of the file: subscribe, then unsubscribe. *)
Definition main (now : Z) : M RequestMockType string unit unit :=
  let! subscription :=
    Observable_subscribe (requests' now)
      {| next := Some (discarding handleRequest);
         error := Some (discarding handleError);
         complete := Some handleComplete |} in
  Subscription_unsubscribe subscription.

Definition initial : State RequestMockType string unit :=
  {| heap := []; world := {| console := []; store := tt |} |}.

(** ** Test doubles

    Counting and logging callbacks, as a test of the classes would pass
    them: values and errors are strings, the consumer's environment is a
    counter. *)

Definition counting : Callback string nat :=
  fun w => (Normal tt, {| console := console w; store := S (store w) |}).

Definition failing (x : string) : Callback string nat :=
  fun w => (Thrown x, w).

Definition logging : IObserverHandlers string string nat :=
  {| next := Some (fun v => console_log ("next " ++ v));
     error := Some (fun e => console_log ("error " ++ e));
     complete := Some (console_log "complete") |}.

Definition no_handlers : IObserverHandlers string string nat :=
  {| next := None; error := None; complete := None |}.

Definition nothing_yet : State string string nat :=
  {| heap := []; world := {| console := []; store := 0 |} |}.

(** One live Observer with logging handlers and a counting teardown. *)
Definition one_active : State string string nat :=
  {| heap := [ {| handlers := logging; isUnsubscribed := false;
                  _unsubscribe := Some counting |} ];
     world := {| console := []; store := 0 |} |}.

(** The same after it was unsubscribed. *)
Definition one_unsubscribed : State string string nat :=
  {| heap := [ {| handlers := logging; isUnsubscribed := true;
                  _unsubscribe := Some counting |} ];
     world := {| console := []; store := 0 |} |}.

(** The same after [error("boom")]: the handler logged, the teardown ran. *)
Definition one_errored : State string string nat :=
  {| heap := [ {| handlers := logging; isUnsubscribed := true;
                  _unsubscribe := Some counting |} ];
     world := {| console := ["error boom"]%string; store := 1 |} |}.

(** A producer that completes at once and then returns a teardown. *)
Definition completes_then_returns (teardown : Callback string nat)
  : Observable string string nat :=
  {| _subscribe := fun observer =>
       Observer_complete observer ;;
       ret (JsFunction teardown) |}.

(** A producer that emits one value and then throws. *)
Definition emits_then_throws : Observable string string nat :=
  {| _subscribe := fun observer =>
       Observer_next observer "a"%string ;;
       throw "boom"%string |}.

(** A producer that emits one value and returns [v]. *)
Definition emits_then_returns (v : JsValue string nat)
  : Observable string string nat :=
  {| _subscribe := fun observer =>
       Observer_next observer "a"%string ;;
       ret v |}.

Definition emits_then_returns_number : Observable string string nat :=
  emits_then_returns (JsNumber 42).

(** Handlers whose error handler throws. *)
Definition error_handler_throws : IObserverHandlers string string nat :=
  {| next := next logging; error := Some failing; complete := complete logging |}.

(** Handlers whose error and complete handlers count the call and throw. *)
Definition counting_then_failing : IObserverHandlers string string nat :=
  {| next := next logging;
     error := Some (fun e w =>
                (Thrown e, {| console := console w; store := S (store w) |}));
     complete := Some (fun w =>
                (Thrown "complete failed"%string,
                 {| console := console w; store := S (store w) |})) |}.

(** One live Observer with those handlers and a logging teardown. *)
Definition one_with_failing_handlers : State string string nat :=
  {| heap := [ {| handlers := counting_then_failing; isUnsubscribed := false;
                  _unsubscribe := Some (console_log "teardown") |} ];
     world := {| console := []; store := 0 |} |}.

(** One live Observer whose teardown throws. *)
Definition one_with_failing_teardown : State string string nat :=
  {| heap := [ {| handlers := logging; isUnsubscribed := false;
                  _unsubscribe := Some (failing "stuck"%string) |} ];
     world := {| console := []; store := 0 |} |}.

(** * Properties *)

Section Properties.
Context {T Err U : Type}.
Implicit Types (s : State T Err U) (o : Observer T Err U) (this : ref)
  (w : World U) (f : option (Callback Err U)).

Lemma state_eta s : {| heap := heap s; world := world s |} = s.
Proof. by destruct s. Qed.

Lemma call_if_present f s :
  match f with Some g => call g | None => ret tt end s
  = call (T:=T) (if_present f) s.
Proof. destruct f; [done|]. unfold call, ret; simpl. by rewrite state_eta. Qed.

(** [next]: nothing when unsubscribed or without a handler, else the
    handler on the value. *)
Lemma next_spec s this o (v : T) :
  heap s !! this = Some o ->
  Observer_next this v s =
    if isUnsubscribed o then Some (Normal tt, s)
    else call (if_present (option_map (fun h => h v) (next (handlers o)))) s.
Proof.
  intros Ho. unfold Observer_next, bind, deref. rewrite Ho.
  destruct (next (handlers o)) as [h|], (isUnsubscribed o); simpl; try done.
  unfold call, ret; simpl. by rewrite state_eta.
Qed.

(** [unsubscribe]: the flag goes up, then the stored teardown, if there is
    one, is called. *)
Lemma unsubscribe_spec s this o :
  heap s !! this = Some o ->
  Observer_unsubscribe this s =
    call (if_present (_unsubscribe o))
         {| heap := <[this := set_isUnsubscribed true o]> (heap s);
            world := world s |}.
Proof.
  intros Ho. unfold Observer_unsubscribe, bind, assign, deref. rewrite Ho. simpl.
  rewrite list_lookup_insert_eq by (by eapply lookup_lt_Some).
  simpl. apply call_if_present.
Qed.

(** [error]: nothing when unsubscribed; else the handler, if any, and,
    unless it threw, [unsubscribe]. *)
Lemma error_spec s this o (e : Err) :
  heap s !! this = Some o ->
  Observer_error this e s =
    if isUnsubscribed o then Some (Normal tt, s)
    else
      match if_present (option_map (fun h => h e) (error (handlers o))) (world s) with
      | (Normal _, w) => Observer_unsubscribe this {| heap := heap s; world := w |}
      | (Thrown x, w) => Some (Thrown x, {| heap := heap s; world := w |})
      end.
Proof.
  intros Ho. unfold Observer_error, bind at 1, deref. rewrite Ho.
  destruct (isUnsubscribed o); simpl; [done|].
  unfold bind, call, ret.
  destruct (error (handlers o)) as [h|]; simpl.
  - by destruct (h e (world s)) as [[[]|x] w].
  - by rewrite state_eta.
Qed.

Lemma complete_spec s this o :
  heap s !! this = Some o ->
  Observer_complete this s =
    if isUnsubscribed o then Some (Normal tt, s)
    else
      match if_present (complete (handlers o)) (world s) with
      | (Normal _, w) => Observer_unsubscribe this {| heap := heap s; world := w |}
      | (Thrown x, w) => Some (Thrown x, {| heap := heap s; world := w |})
      end.
Proof.
  intros Ho. unfold Observer_complete, bind at 1, deref. rewrite Ho.
  destruct (isUnsubscribed o); simpl; [done|].
  unfold bind, call, ret.
  destruct (complete (handlers o)) as [h|]; simpl.
  - by destruct (h (world s)) as [[[]|x] w].
  - by rewrite state_eta.
Qed.

Lemma setUnsubscribe_spec s this o f :
  heap s !! this = Some o ->
  Observer_setUnsubscribe this f s =
    Some (Normal tt,
          {| heap := <[this := set__unsubscribe f o]> (heap s);
             world := world s |}).
Proof. intros Ho. unfold Observer_setUnsubscribe, assign. by rewrite Ho. Qed.

(** ** Frame of [next] and the teardown slot *)

(** C9: [next(v)] leaves the Observer as it was.  Whether the handler was
    invoked or not, and whether it returned or threw, the call ends with
    the heap it started with: the Observer's flag, its handler record and
    its stored teardown are the same after the call as before. *)
Theorem next_leaves_observer_unchanged s this o (v : T) :
  heap s !! this = Some o ->
  exists c s',
    Observer_next this v s = Some (c, s') /\
    heap s' = heap s /\
    heap s' !! this = Some o.
Proof.
  intros Ho. rewrite (next_spec s this v Ho).
  destruct (isUnsubscribed o).
  - by exists (Normal tt), s.
  - unfold call.
    destruct (if_present _ (world s)) as [c w].
    by exists c, {| heap := heap s; world := w |}.
Qed.

(** C10: [setUnsubscribe(f)] stores [f] in the teardown slot, whatever
    was there and whatever [f] is ([undefined] included), whether or not
    the Observer is already unsubscribed; it returns normally with the
    world untouched, so nothing is invoked at registration; the flag and
    the handlers stay; a second registration replaces the first. *)
Theorem setUnsubscribe_overwrites s this o f g :
  heap s !! this = Some o ->
  Observer_setUnsubscribe this f s =
    Some (Normal tt,
          {| heap := <[this := {| handlers := handlers o;
                                  isUnsubscribed := isUnsubscribed o;
                                  _unsubscribe := f |}]> (heap s);
             world := world s |}) /\
  (Observer_setUnsubscribe this g ;; Observer_setUnsubscribe this f) s =
    Observer_setUnsubscribe this f s.
Proof.
  intros Ho. split; [exact (setUnsubscribe_spec s this f Ho)|].
  unfold bind. rewrite (setUnsubscribe_spec s this g Ho).
  erewrite setUnsubscribe_spec; last first.
  { simpl. apply list_lookup_insert_eq. by eapply lookup_lt_Some. }
  rewrite (setUnsubscribe_spec s this f Ho). simpl.
  by rewrite list_insert_insert_eq.
Qed.

(** ** Termination *)

(** What a method call does to the heap: nothing, or one of the two
    assignments, to its own Observer. *)
Lemma invoke_heap s this (c : MethodCall T Err U) result s' :
  invoke this c s = Some (result, s') ->
  exists o, heap s !! this = Some o /\
    (heap s' = heap s \/
     heap s' = <[this := set_isUnsubscribed true o]> (heap s) \/
     exists f, heap s' = <[this := set__unsubscribe f o]> (heap s)).
Proof.
  intros Hrun.
  destruct (heap s !! this) as [o|] eqn:Ho; last first.
  { destruct c; simpl in Hrun;
      unfold Observer_next, Observer_error, Observer_complete,
        Observer_unsubscribe, Observer_setUnsubscribe, bind, deref, assign in Hrun;
      rewrite Ho in Hrun; discriminate. }
  exists o. split; [done|].
  assert (Hunsub : forall w result s',
    Observer_unsubscribe this {| heap := heap s; world := w |} = Some (result, s') ->
    heap s' = <[this := set_isUnsubscribed true o]> (heap s)).
  { intros w r0 s0. rewrite (unsubscribe_spec {| heap := heap s; world := w |} this Ho).
    unfold call; simpl. destruct (if_present _ w). by intros [= _ <-]. }
  destruct c as [v|e| | |f]; simpl in Hrun.
  - rewrite (next_spec s this v Ho) in Hrun. left.
    destruct (isUnsubscribed o); [by injection Hrun as _ <-|].
    unfold call in Hrun. destruct (if_present _ (world s)).
    by injection Hrun as _ <-.
  - rewrite (error_spec s this e Ho) in Hrun.
    destruct (isUnsubscribed o); [left; by injection Hrun as _ <-|].
    destruct (if_present _ (world s)) as [[[]|x] w].
    + right; left. eauto.
    + left. by injection Hrun as _ <-.
  - rewrite (complete_spec s this Ho) in Hrun.
    destruct (isUnsubscribed o); [left; by injection Hrun as _ <-|].
    destruct (if_present _ (world s)) as [[[]|x] w].
    + right; left. eauto.
    + left. by injection Hrun as _ <-.
  - right; left. apply (Hunsub (world s) result). by rewrite state_eta.
  - right; right. exists f.
    rewrite (setUnsubscribe_spec s this f Ho) in Hrun. by injection Hrun as _ <-.
Qed.

(** No method call, on any Observer, takes a flag down. *)
Lemma invoke_keeps_unsubscribed s this other (c : MethodCall T Err U) result s' :
  invoke other c s = Some (result, s') ->
  unsubscribed_at this s -> unsubscribed_at this s'.
Proof.
  intros Hrun (o & Ho & Hflag). unfold unsubscribed_at.
  destruct (invoke_heap _ _ _ Hrun) as (o' & Ho' & [-> | [-> | [f ->]]]).
  - by exists o.
  - destruct (decide (other = this)) as [->|Hne].
    + eexists. split; [apply list_lookup_insert_eq; by eapply lookup_lt_Some|done].
    + exists o. by rewrite list_lookup_insert_ne.
  - destruct (decide (other = this)) as [->|Hne].
    + eexists. split; [apply list_lookup_insert_eq; by eapply lookup_lt_Some|].
      simpl. congruence.
    + exists o. by rewrite list_lookup_insert_ne.
Qed.

Lemma history_keeps_unsubscribed (calls : list (ref * MethodCall T Err U)) s this s' :
  history calls s = Some s' ->
  unsubscribed_at this s -> unsubscribed_at this s'.
Proof.
  revert s. induction calls as [|[other c] calls IH]; intros s; simpl.
  - by intros [= <-].
  - destruct (invoke other c s) as [[result s1]|] eqn:Hrun; [|done].
    intros Hrest Hs. apply (IH s1 Hrest). by eapply invoke_keeps_unsubscribed.
Qed.

(** A call that ends the subscription leaves the flag up. *)
Lemma terminates_unsubscribed s this (c : MethodCall T Err U) result s' :
  invoke this c s = Some (result, s') ->
  terminates c result = true ->
  unsubscribed_at this s'.
Proof.
  intros Hrun Hterm.
  destruct (invoke_heap _ _ _ Hrun) as (o & Ho & Hheap).
  assert (Hup : heap s' = <[this := set_isUnsubscribed true o]> (heap s) ->
                unsubscribed_at this s').
  { unfold unsubscribed_at. intros ->. eexists.
    split; [apply list_lookup_insert_eq; by eapply lookup_lt_Some|done]. }
  destruct c as [v|e| | |f]; simpl in Hrun, Hterm; try done.
  - rewrite (error_spec s this e Ho) in Hrun.
    destruct (isUnsubscribed o) eqn:Hflag.
    { injection Hrun as _ <-. by exists o. }
    destruct (if_present _ (world s)) as [[[]|x] w].
    + rewrite (unsubscribe_spec {| heap := heap s; world := w |} this Ho) in Hrun.
      unfold call in Hrun; simpl in Hrun. destruct (if_present _ w).
      apply Hup. by injection Hrun as _ <-.
    + injection Hrun as <- _. done.
  - rewrite (complete_spec s this Ho) in Hrun.
    destruct (isUnsubscribed o) eqn:Hflag.
    { injection Hrun as _ <-. by exists o. }
    destruct (if_present _ (world s)) as [[[]|x] w].
    + rewrite (unsubscribe_spec {| heap := heap s; world := w |} this Ho) in Hrun.
      unfold call in Hrun; simpl in Hrun. destruct (if_present _ w).
      apply Hup. by injection Hrun as _ <-.
    + injection Hrun as <- _. done.
  - rewrite (unsubscribe_spec s this Ho) in Hrun.
    unfold call in Hrun; simpl in Hrun. destruct (if_present _ (world s)).
    apply Hup. by injection Hrun as _ <-.
Qed.

(** A call of [error], [complete] or [unsubscribe] whose handler did not
    throw leaves the flag up, whatever the teardown then did. *)
Lemma ended_unsubscribed s this o (c : MethodCall T Err U) result s1 :
  heap s !! this = Some o ->
  terminates c (Normal tt) = true ->
  invoke this c s = Some (result, s1) ->
  isUnsubscribed o = true \/ fst (handler_call o c (world s)) = Normal tt ->
  unsubscribed_at this s1.
Proof.
  intros Ho Hc Hrun Hhandler.
  assert (Hup : forall w result s1,
    Observer_unsubscribe this {| heap := heap s; world := w |} = Some (result, s1) ->
    unsubscribed_at this s1).
  { intros w r0 s0. rewrite (unsubscribe_spec {| heap := heap s; world := w |} this Ho).
    unfold call; cbn [heap world]. destruct (if_present _ w). intros [= _ <-].
    eexists. split; [apply list_lookup_insert_eq; by eapply lookup_lt_Some|done]. }
  destruct c as [v|e| | |f]; simpl in Hrun, Hc, Hhandler; try done.
  - rewrite (error_spec s this e Ho) in Hrun.
    destruct (isUnsubscribed o) eqn:Hflag.
    { injection Hrun as _ <-. by exists o. }
    destruct Hhandler as [|Hreturns]; [done|].
    destruct (if_present _ (world s)) as [[[]|x] w]; [by eapply Hup|done].
  - rewrite (complete_spec s this Ho) in Hrun.
    destruct (isUnsubscribed o) eqn:Hflag.
    { injection Hrun as _ <-. by exists o. }
    destruct Hhandler as [|Hreturns]; [done|].
    destruct (if_present _ (world s)) as [[[]|x] w]; [by eapply Hup|done].
  - eapply (Hup (world s)). by rewrite state_eta.
Qed.

(** C4, as the code has it: once [unsubscribe()] has been called on an
    Observer (a fresh one included), or [error()] or [complete()] has been
    called and its handler did not throw, then, however that call ended
    (its teardown may have thrown) and after any further method calls on
    this or other Observers, every [next(v)] returns with the state as it
    found it: the [next] handler is not invoked.  When the [error] or
    [complete] handler throws on a live Observer, the call ends with that
    exception in the world the handler left, and the Observer is as it
    was: live, so that later [next(v)] calls are still delivered. *)
Theorem next_after_termination_is_noop s this o (c : MethodCall T Err U) result s1 :
  heap s !! this = Some o ->
  terminates c (Normal tt) = true ->
  invoke this c s = Some (result, s1) ->
  (isUnsubscribed o = true \/ fst (handler_call o c (world s)) = Normal tt ->
   forall (calls : list (ref * MethodCall T Err U)) s2 (v : T),
     history calls s1 = Some s2 ->
     Observer_next this v s2 = Some (Normal tt, s2)) /\
  (forall (x : Err) w,
     isUnsubscribed o = false ->
     handler_call o c (world s) = (Thrown x, w) ->
     result = Thrown x /\ s1 = {| heap := heap s; world := w |}).
Proof.
  intros Ho Hc Hrun. split.
  - intros Hhandler calls s2 v Hlater.
    assert (Hs2 : unsubscribed_at this s2).
    { eapply history_keeps_unsubscribed; [exact Hlater|].
      eapply ended_unsubscribed; eassumption. }
    destruct Hs2 as (o2 & Ho2 & Hflag).
    by rewrite (next_spec s2 this v Ho2), Hflag.
  - intros x w Hlive Hthrows.
    destruct c as [v|e| | |f]; simpl in Hrun, Hc, Hthrows; try done.
    + rewrite (error_spec s this e Ho), Hlive, Hthrows in Hrun.
      by injection Hrun as <- <-.
    + rewrite (complete_spec s this Ho), Hlive, Hthrows in Hrun.
      by injection Hrun as <- <-.
Qed.

(** C5, as the code has it: on an Observer that is not unsubscribed,
    [error(err)] calls the error handler, if one was supplied, once with
    [err].  When the handler has returned the call goes on exactly as
    [unsubscribe] does: the flag goes up and the stored teardown, if any,
    runs on the world the handler left.  Without an error handler the
    error is dropped and the same unsubscribe step runs on the world as it
    was.  However the unsubscribe step ends, the Observer is unsubscribed
    afterwards, and a further [error] or [complete] returns without
    touching anything.  When the handler throws, the call ends there with
    the handler's exception: the flag is not set and the teardown is not
    run, the Observer is as it was, so a further [error] calls the handler
    again.  [complete()] is the same with the complete handler. *)
Theorem error_and_complete_terminate s this o (e : Err) :
  heap s !! this = Some o ->
  isUnsubscribed o = false ->
  let unsubscribed_from w :=
    call (T:=T) (if_present (_unsubscribe o))
         {| heap := <[this := set_isUnsubscribed true o]> (heap s); world := w |} in
  (forall h w, error (handlers o) = Some h -> h e (world s) = (Normal tt, w) ->
     Observer_error this e s = unsubscribed_from w) /\
  (error (handlers o) = None ->
     Observer_error this e s = unsubscribed_from (world s)) /\
  (forall h w, complete (handlers o) = Some h -> h (world s) = (Normal tt, w) ->
     Observer_complete this s = unsubscribed_from w) /\
  (complete (handlers o) = None ->
     Observer_complete this s = unsubscribed_from (world s)) /\
  (forall w, exists result s',
     unsubscribed_from w = Some (result, s') /\
     unsubscribed_at this s' /\
     (forall e', Observer_error this e' s' = Some (Normal tt, s')) /\
     Observer_complete this s' = Some (Normal tt, s')) /\
  (forall h x w, error (handlers o) = Some h -> h e (world s) = (Thrown x, w) ->
     Observer_error this e s = Some (Thrown x, {| heap := heap s; world := w |}) /\
     forall e', Observer_error this e' {| heap := heap s; world := w |} =
       match h e' w with
       | (Normal _, w') => unsubscribed_from w'
       | (Thrown x', w') => Some (Thrown x', {| heap := heap s; world := w' |})
       end) /\
  (forall h x w, complete (handlers o) = Some h -> h (world s) = (Thrown x, w) ->
     Observer_complete this s = Some (Thrown x, {| heap := heap s; world := w |}) /\
     Observer_complete this {| heap := heap s; world := w |} =
       match h w with
       | (Normal _, w') => unsubscribed_from w'
       | (Thrown x', w') => Some (Thrown x', {| heap := heap s; world := w' |})
       end).
Proof.
  intros Ho Hflag ended. subst ended.
  repeat split.
  - intros h w Hh Hrun.
    rewrite (error_spec s this e Ho), Hflag, Hh. simpl. rewrite Hrun.
    apply (unsubscribe_spec {| heap := heap s; world := w |} this Ho).
  - intros Hh.
    rewrite (error_spec s this e Ho), Hflag, Hh. simpl.
    apply (unsubscribe_spec {| heap := heap s; world := world s |} this Ho).
  - intros h w Hh Hrun.
    rewrite (complete_spec s this Ho), Hflag, Hh. simpl. rewrite Hrun.
    apply (unsubscribe_spec {| heap := heap s; world := w |} this Ho).
  - intros Hh.
    rewrite (complete_spec s this Ho), Hflag, Hh. simpl.
    apply (unsubscribe_spec {| heap := heap s; world := world s |} this Ho).
  - intros w. unfold call; simpl.
    destruct (if_present (_unsubscribe o) w) as [result w'].
    assert (Ho' : <[this := set_isUnsubscribed true o]> (heap s) !! this
                  = Some (set_isUnsubscribed true o)).
    { apply list_lookup_insert_eq. by eapply lookup_lt_Some. }
    eexists _, _. split; [done|]. split; [|split].
    + by eexists.
    + intros e'. by erewrite error_spec by exact Ho'.
    + by erewrite complete_spec by exact Ho'.
  - rewrite (error_spec s this e Ho), Hflag, H. simpl. by rewrite H0.
  - intros e'.
    rewrite (error_spec {| heap := heap s; world := w |} this e' Ho), Hflag, H.
    cbn [option_map if_present world heap].
    destruct (h e' w) as [[[]|x'] w']; [|done].
    apply (unsubscribe_spec {| heap := heap s; world := w' |} this Ho).
  - rewrite (complete_spec s this Ho), Hflag, H. simpl. by rewrite H0.
  - rewrite (complete_spec {| heap := heap s; world := w |} this Ho), Hflag, H.
    cbn [if_present world heap].
    destruct (h w) as [[[]|x'] w']; [|done].
    apply (unsubscribe_spec {| heap := heap s; world := w' |} this Ho).
Qed.

(** ** Repeated [unsubscribe] *)

(** C1, as the code has it: any number of [unsubscribe()] calls leave the
    Observer as the first one left it (flag up, handlers and stored
    teardown unchanged), and no handler runs; but the stored teardown runs
    once for each call, so [n] calls run it [n] times.  (Stated for a
    teardown that returns; with no teardown stored the world stays as it
    is.) *)
Theorem unsubscribe_runs_teardown_each_time s this o (n : nat) :
  heap s !! this = Some o ->
  (forall w, fst (if_present (_unsubscribe o) w) = Normal tt) ->
  times (S n) (Observer_unsubscribe this) s =
    Some (Normal tt,
          {| heap := <[this := set_isUnsubscribed true o]> (heap s);
             world := Nat.iter (S n)
                        (fun w => snd (if_present (_unsubscribe o) w))
                        (world s) |}).
Proof.
  assert (Hone : forall s o, heap s !! this = Some o ->
    (forall w, fst (if_present (_unsubscribe o) w) = Normal tt) ->
    Observer_unsubscribe this s =
      Some (Normal tt,
            {| heap := <[this := set_isUnsubscribed true o]> (heap s);
               world := snd (if_present (_unsubscribe o) (world s)) |})).
  { clear. intros s o Ho Hreturns.
    rewrite (unsubscribe_spec s this Ho). unfold call; simpl.
    specialize (Hreturns (world s)).
    destruct (if_present (_unsubscribe o) (world s)) as [result w]; simpl in *.
    by subst result. }
  revert s o. induction n as [|n IH]; intros s o Ho Hreturns.
  - change (times 1 (Observer_unsubscribe this) s)
      with (bind (Observer_unsubscribe this) (fun _ => ret tt) s).
    unfold bind. by rewrite (Hone s o Ho Hreturns).
  - change (times (S (S n)) (Observer_unsubscribe this) s)
      with (bind (Observer_unsubscribe this)
                 (fun _ => times (S n) (Observer_unsubscribe this)) s).
    unfold bind at 1. rewrite (Hone s o Ho Hreturns).
    rewrite (IH _ (set_isUnsubscribed true o)); cycle 1.
    + cbn [heap]. apply list_lookup_insert_eq. by eapply lookup_lt_Some.
    + exact Hreturns.
    + cbn [heap world]. rewrite list_insert_insert_eq.
      by rewrite (Nat.iter_succ_r (S n)
                    (fun w => snd (if_present (_unsubscribe o) w)) (world s)).
Qed.

(** ** [subscribe] *)

(** The state in which [subscribe] starts the producer: the new Observer
    is the last object of the heap. *)
Lemma subscribe_unfold (p : Observable T Err U) h s :
  Observable_subscribe p h s =
    match _subscribe p (length (heap s))
            {| heap := heap s ++ [Observer_constructor h]; world := world s |} with
    | Some (Normal v, s1) =>
        match Observer_setUnsubscribe (length (heap s)) (function_or_undefined v) s1 with
        | Some (Normal _, s2) => Some (Normal {| observer := length (heap s) |}, s2)
        | Some (Thrown x, s2) => Some (Thrown x, s2)
        | None => None
        end
    | Some (Thrown x, s1) => Some (Thrown x, s1)
    | None => None
    end.
Proof.
  unfold Observable_subscribe, Observer_new, alloc, bind; simpl.
  destruct (_subscribe p _ _) as [[[v|x] s1]|]; [|done..].
  by destruct (Observer_setUnsubscribe _ _ s1) as [[[[]|x] s2]|].
Qed.

Lemma function_or_undefined_function (td : Callback Err U) :
  function_or_undefined (JsFunction td) = Some td.
Proof. done. Qed.

Lemma function_or_undefined_other (v : JsValue Err U) :
  typeof v <> "function"%string -> function_or_undefined v = None.
Proof. by destruct v. Qed.

(** C2, as the code has it: when the producer has terminated the Observer
    during its run and then returns a teardown, [subscribe] stores the
    teardown on the already unsubscribed Observer and returns; it does not
    invoke it (the world is as the producer left it).  The teardown runs
    when the subscription's [unsubscribe()] is called afterwards. *)
Theorem teardown_after_synchronous_termination_is_stored
    (p : Observable T Err U) h s (td : Callback Err U) s1 o1 :
  _subscribe p (length (heap s))
    {| heap := heap s ++ [Observer_constructor h]; world := world s |}
    = Some (Normal (JsFunction td), s1) ->
  heap s1 !! length (heap s) = Some o1 ->
  isUnsubscribed o1 = true ->
  let s2 := {| heap := <[length (heap s) := set__unsubscribe (Some td) o1]> (heap s1);
               world := world s1 |} in
  Observable_subscribe p h s = Some (Normal {| observer := length (heap s) |}, s2) /\
  Subscription_unsubscribe {| observer := length (heap s) |} s2 = call td s2.
Proof.
  intros Hrun Ho1 Hflag s2. subst s2. split.
  - rewrite subscribe_unfold, Hrun, function_or_undefined_function.
    by rewrite (setUnsubscribe_spec s1 _ (Some td) Ho1).
  - unfold Subscription_unsubscribe; simpl.
    erewrite unsubscribe_spec; last first.
    { simpl. apply list_lookup_insert_eq. by eapply lookup_lt_Some. }
    simpl. rewrite list_insert_insert_eq.
    destruct o1 as [ho fo uo]; simpl in *. by subst fo.
Qed.

(** C6: when the producer throws, [subscribe] ends with that same
    exception, in the very state in which the producer threw: after the
    throw the core runs nothing, neither the error handler nor any other
    callback, and registers no teardown. *)
Theorem producer_throw_propagates (p : Observable T Err U) h s (x : Err) s1 :
  _subscribe p (length (heap s))
    {| heap := heap s ++ [Observer_constructor h]; world := world s |}
    = Some (Thrown x, s1) ->
  Observable_subscribe p h s = Some (Thrown x, s1).
Proof. intros Hrun. by rewrite subscribe_unfold, Hrun. Qed.

(** C7: when the producer returns a value that is not a function,
    [subscribe] registers no teardown: the Observer's slot holds
    [undefined] when [subscribe] returns (even if the producer had stored
    something there itself), and a later [unsubscribe()] on the
    subscription sets the flag and returns, the world untouched. *)
Theorem non_function_return_is_ignored
    (p : Observable T Err U) h s (v : JsValue Err U) s1 o1 :
  _subscribe p (length (heap s))
    {| heap := heap s ++ [Observer_constructor h]; world := world s |}
    = Some (Normal v, s1) ->
  typeof v <> "function"%string ->
  heap s1 !! length (heap s) = Some o1 ->
  let s2 := {| heap := <[length (heap s) := set__unsubscribe None o1]> (heap s1);
               world := world s1 |} in
  Observable_subscribe p h s = Some (Normal {| observer := length (heap s) |}, s2) /\
  Subscription_unsubscribe {| observer := length (heap s) |} s2 =
    Some (Normal tt,
          {| heap := <[length (heap s) :=
                         {| handlers := handlers o1; isUnsubscribed := true;
                            _unsubscribe := None |}]> (heap s1);
             world := world s1 |}).
Proof.
  intros Hrun Hv Ho1 s2. subst s2. split.
  - rewrite subscribe_unfold, Hrun, (function_or_undefined_other _ Hv).
    by rewrite (setUnsubscribe_spec s1 _ None Ho1).
  - unfold Subscription_unsubscribe; simpl.
    erewrite unsubscribe_spec; last first.
    { simpl. apply list_lookup_insert_eq. by eapply lookup_lt_Some. }
    unfold call; simpl. by rewrite list_insert_insert_eq.
Qed.

(** ** [from] *)

Lemma insert_last (l : list (Observer T Err U)) o o' :
  <[length l := o']> (l ++ [o]) = l ++ [o'].
Proof.
  rewrite insert_app_r_alt by lia. by rewrite Nat.sub_diag.
Qed.

(** The loop of [from] on a live Observer hands each value to the [next]
    handler, in order, and stops at the first handler call that throws. *)
Lemma forEach_next_delivers (S : list T) (hp : list (Observer T Err U)) this o w :
  hp !! this = Some o ->
  isUnsubscribed o = false ->
  forEach S (fun value => Observer_next this value) {| heap := hp; world := w |}
  = call (deliver_each (handlers o) S) {| heap := hp; world := w |}.
Proof.
  intros Ho Hflag. revert w. induction S as [|v S IH]; intros w; [done|].
  cbn [forEach]. unfold bind. rewrite (next_spec {| heap := hp; world := w |} this v Ho), Hflag.
  cbn [deliver_each]. unfold call, and_then; cbn [heap world].
  destruct (if_present _ w) as [[[]|x] w1]; [|done].
  by rewrite IH.
Qed.

(** C3: subscribing to [from(S)] hands every element of [S] to the [next]
    handler, once each and in the order of [S], then calls the [complete]
    handler once, and only then returns: the world in which [subscribe]
    returns is the one [emissions] computes, the Observer is unsubscribed
    and holds the logging teardown, which has not run.  A handler that
    throws ends the run there, and [subscribe] ends with its exception
    (the Observer is then left as constructed). *)
Theorem from_delivers_all_then_completes (S : list T) h s :
  Observable_subscribe (Observable_from S) h s =
    match emissions h S (world s) with
    | (Normal _, w) =>
        Some (Normal {| observer := length (heap s) |},
              {| heap := heap s ++
                   [ {| handlers := h; isUnsubscribed := true;
                        _unsubscribe := Some (console_log "unsubscribed") |} ];
                 world := w |})
    | (Thrown x, w) =>
        Some (Thrown x,
              {| heap := heap s ++ [Observer_constructor h]; world := w |})
    end.
Proof.
  assert (Ho : (heap s ++ [Observer_constructor h]) !! length (heap s)
               = Some (Observer_constructor h)) by by apply list_lookup_middle.
  rewrite subscribe_unfold. cbn [_subscribe Observable_from].
  unfold bind at 1. rewrite (forEach_next_delivers S _ _ (world s) Ho eq_refl).
  unfold emissions, and_then, call at 1. cbn [heap world handlers Observer_constructor].
  destruct (deliver_each h S (world s)) as [[[]|x] w1]; [|done].
  unfold bind.
  rewrite (complete_spec {| heap := heap s ++ [Observer_constructor h]; world := w1 |}
             _ Ho).
  cbn [isUnsubscribed Observer_constructor handlers heap world].
  destruct (if_present (complete h) w1) as [[[]|x] w2]; [|done].
  rewrite (unsubscribe_spec
             {| heap := heap s ++ [Observer_constructor h]; world := w2 |} _ Ho).
  unfold call, ret; cbn.
  rewrite insert_last. unfold Observer_setUnsubscribe, assign; cbn.
  rewrite list_lookup_middle by done. cbn.
  by rewrite insert_last.
Qed.

(** ** Independent subscriptions *)

(** A method call runs the host code that its own Observer's fields
    determine, on the world as it is; no other object is consulted. *)
Lemma invoke_outcome s this (c : MethodCall T Err U) :
  outcome (invoke this c s) =
    match heap s !! this with
    | Some o => Some (reaction o c (world s))
    | None => None
    end.
Proof.
  destruct (heap s !! this) as [o|] eqn:Ho; last first.
  { destruct c; simpl;
      unfold Observer_next, Observer_error, Observer_complete,
        Observer_unsubscribe, Observer_setUnsubscribe, bind, deref, assign;
      by rewrite Ho. }
  assert (Hunsub : forall w,
    outcome (Observer_unsubscribe this {| heap := heap s; world := w |})
    = Some (if_present (_unsubscribe o) w)).
  { intros w. rewrite (unsubscribe_spec {| heap := heap s; world := w |} this Ho).
    unfold call; simpl. by destruct (if_present _ w). }
  destruct c as [v|e| | |f]; simpl.
  - rewrite (next_spec s this v Ho).
    destruct (isUnsubscribed o); [done|].
    unfold call. by destruct (if_present _ (world s)).
  - rewrite (error_spec s this e Ho).
    destruct (isUnsubscribed o); [done|]. unfold and_then.
    destruct (if_present _ (world s)) as [[[]|x] w]; [apply Hunsub|done].
  - rewrite (complete_spec s this Ho).
    destruct (isUnsubscribed o); [done|]. unfold and_then.
    destruct (if_present _ (world s)) as [[[]|x] w]; [apply Hunsub|done].
  - rewrite <- (Hunsub (world s)). by rewrite state_eta.
  - by rewrite (setUnsubscribe_spec s this f Ho).
Qed.

(** Calls on other Observers leave this one as it is. *)
Lemma history_frame (calls : list (ref * MethodCall T Err U)) s this s' :
  Forall (fun rc => fst rc <> this) calls ->
  history calls s = Some s' ->
  heap s' !! this = heap s !! this.
Proof.
  intros Hcalls. revert s.
  induction Hcalls as [|[other c] calls Hne _ IH]; intros s; simpl.
  - by intros [= <-].
  - destruct (invoke other c s) as [[result s1]|] eqn:Hrun; [|done].
    intros Hrest. rewrite (IH s1 Hrest).
    destruct (invoke_heap _ _ _ Hrun) as (o & _ & [-> | [-> | [f ->]]]);
      [done | by apply list_lookup_insert_ne..].
Qed.

(** What [subscribe] has done when it returns. *)
Lemma subscribe_returns (p : Observable T Err U) h s sub s1 :
  Observable_subscribe p h s = Some (Normal sub, s1) ->
  exists v s' o',
    observer sub = length (heap s) /\
    _subscribe p (length (heap s))
      {| heap := heap s ++ [Observer_constructor h]; world := world s |}
      = Some (Normal v, s') /\
    heap s' !! length (heap s) = Some o' /\
    s1 = {| heap := <[length (heap s) :=
                        set__unsubscribe (function_or_undefined v) o']> (heap s');
            world := world s' |}.
Proof.
  rewrite subscribe_unfold.
  destruct (_subscribe p _ _) as [[[v|x] s']|] eqn:Hrun; [|done..].
  destruct (heap s' !! length (heap s)) as [o'|] eqn:Ho'.
  - rewrite (setUnsubscribe_spec s' _ (function_or_undefined v) Ho').
    intros [= <- <-]. by exists v, s', o'.
  - unfold Observer_setUnsubscribe, assign. by rewrite Ho'.
Qed.

(** Method calls on one's own Observer, sequenced, stay with it. *)
Lemma own_only_invoke this (c : MethodCall T Err U) : own_only this (invoke this c).
Proof.
  intros s s' result Hrun.
  destruct (invoke_heap _ _ _ Hrun) as (o & _ & [-> | [-> | [f ->]]]).
  - done.
  - rewrite length_insert. split; [done|]. intros other Hne.
    by apply list_lookup_insert_ne.
  - rewrite length_insert. split; [done|]. intros other Hne.
    by apply list_lookup_insert_ne.
Qed.

Lemma own_only_ret {A} this (a : A) : own_only this (ret (T:=T) (Err:=Err) (U:=U) a).
Proof. by intros s s' c [= _ <-]. Qed.

Lemma own_only_bind {A B} this (m : M T Err U A) (k : A -> M T Err U B) :
  own_only this m -> (forall a, own_only this (k a)) -> own_only this (bind m k).
Proof.
  intros Hm Hk s s' c. unfold bind.
  destruct (m s) as [[[a|x] s1]|] eqn:Hrun; [| |done].
  - intros Hrest. destruct (Hm _ _ _ Hrun) as [Hlen Hsame].
    destruct (Hk a _ _ _ Hrest) as [Hlen' Hsame'].
    split; [congruence|]. intros other Hne. by rewrite Hsame', Hsame.
  - intros [= <- <-]. exact (Hm _ _ _ Hrun).
Qed.

Lemma own_only_forEach this (S : list T) (f : T -> M T Err U unit) :
  (forall v, own_only this (f v)) -> own_only this (forEach S f).
Proof.
  intros Hf. induction S as [|v S IH]; simpl.
  - apply own_only_ret.
  - apply own_only_bind; [apply Hf | by intros _].
Qed.

Lemma own_only_confined (producer : ref -> M T Err U (JsValue Err U)) :
  (forall this, own_only this (producer this)) -> confined producer.
Proof.
  intros Hown this s s' c _ Hrun.
  destruct (Hown this _ _ _ Hrun) as [Hlen Hsame].
  split; [lia|]. intros other Hne _. by apply Hsame.
Qed.

(** The producer of [from] is such a producer. *)
Lemma from_confined (S : list T) :
  confined (_subscribe (Observable_from (Err:=Err) (U:=U) S)).
Proof.
  apply own_only_confined. intros this. cbn [_subscribe Observable_from].
  apply own_only_bind.
  - apply own_only_forEach. intros v. apply (own_only_invoke this (CallNext v)).
  - intros _. apply own_only_bind.
    + apply (own_only_invoke this CallComplete).
    + intros _. apply own_only_ret.
Qed.

(** C8: two [subscribe] calls on one Observable get an Observer each: each
    is an object that did not exist before its call, so they are distinct,
    and both exist afterwards.  The second run leaves the first Observer
    (flag, handlers, teardown slot) as it was.  From then on, for either of
    the two, whatever method calls are made on other Observers
    (unsubscribing or terminating the other subscription among them), its
    own Observer is as it was, and every method call on it ends the same
    way and runs the same handlers on a given world as it would have
    before. *)
Theorem subscriptions_are_independent
    (p : Observable T Err U) h1 h2 s sub1 s1 sub2 s2 :
  confined (_subscribe p) ->
  Observable_subscribe p h1 s = Some (Normal sub1, s1) ->
  Observable_subscribe p h2 s1 = Some (Normal sub2, s2) ->
  observer sub1 <> observer sub2 /\
  heap s !! observer sub1 = None /\
  heap s1 !! observer sub2 = None /\
  is_Some (heap s2 !! observer sub1) /\
  is_Some (heap s2 !! observer sub2) /\
  heap s2 !! observer sub1 = heap s1 !! observer sub1 /\
  forall this, this = observer sub1 \/ this = observer sub2 ->
    forall (calls : list (ref * MethodCall T Err U)) s3,
      Forall (fun rc => fst rc <> this) calls ->
      history calls s2 = Some s3 ->
      heap s3 !! this = heap s2 !! this /\
      forall (c : MethodCall T Err U) w,
        outcome (invoke this c {| heap := heap s3; world := w |}) =
        outcome (invoke this c {| heap := heap s2; world := w |}).
Proof.
  intros Hp Hfirst Hsecond.
  destruct (subscribe_returns _ _ _ Hfirst) as (v1 & t1 & o1 & Hr1 & Hrun1 & Ho1 & ->).
  destruct (subscribe_returns _ _ _ Hsecond) as (v2 & t2 & o2 & Hr2 & Hrun2 & Ho2 & ->).
  cbn [heap world] in *.
  assert (Hlt : observer sub1 < length (heap t1)).
  { rewrite Hr1. by eapply lookup_lt_Some. }
  assert (Hne : observer sub1 <> observer sub2).
  { rewrite Hr2, length_insert. lia. }
  rewrite length_insert in Hr2, Hrun2, Ho2. rewrite !length_insert.
  pose proof (fun Hlive => Hp _ _ _ _ Hlive Hrun2) as Hconf.
  cbn [heap] in Hconf. rewrite length_app, length_insert in Hconf.
  destruct (Hconf ltac:(simpl; lia)) as [Hgrows Hothers]. clear Hconf.
  simpl in Hgrows.
  assert (Hkept : <[length (heap t1) :=
                      set__unsubscribe (function_or_undefined v2) o2]> (heap t2)
                    !! observer sub1
                  = <[length (heap s) :=
                      set__unsubscribe (function_or_undefined v1) o1]> (heap t1)
                    !! observer sub1).
  { rewrite list_lookup_insert_ne by (rewrite <- Hr2; congruence).
    rewrite Hothers by lia.
    apply lookup_app_l. by rewrite length_insert. }
  split_and!.
  - exact Hne.
  - apply lookup_ge_None. lia.
  - apply lookup_ge_None. rewrite Hr2, length_insert. lia.
  - rewrite Hkept, Hr1.
    rewrite list_lookup_insert_eq by (by eapply lookup_lt_Some). by eexists.
  - rewrite Hr2.
    rewrite list_lookup_insert_eq by (by eapply lookup_lt_Some). by eexists.
  - exact Hkept.
  - intros this _ calls s3 Hcalls Hlater.
    pose proof (@history_frame calls _ this s3 Hcalls Hlater) as Hsame. cbn [heap] in Hsame.
    split; [exact Hsame|].
    intros c w. rewrite !invoke_outcome. cbn [heap world]. by rewrite Hsame.
Qed.

End Properties.

(** ** The properties at work *)

Lemma next_leaves_observer_unchanged_witness :
  heap one_active !! 0 = Some {| handlers := logging; isUnsubscribed := false;
                                 _unsubscribe := Some counting |} /\
  exists c s',
    Observer_next 0 "a"%string one_active = Some (c, s') /\
    heap s' = heap one_active /\
    heap s' !! 0 = Some {| handlers := logging; isUnsubscribed := false;
                           _unsubscribe := Some counting |}.
Proof.
  split; [reflexivity|].
  apply (next_leaves_observer_unchanged one_active 0 "a"%string). reflexivity.
Defined.

Lemma setUnsubscribe_overwrites_witness :
  heap one_unsubscribed !! 0
    = Some {| handlers := logging; isUnsubscribed := true;
              _unsubscribe := Some counting |} /\
  Observer_setUnsubscribe 0 None one_unsubscribed =
    Some (Normal tt,
          {| heap := [ {| handlers := logging; isUnsubscribed := true;
                          _unsubscribe := None |} ];
             world := {| console := []; store := 0 |} |}).
Proof.
  split; [reflexivity|].
  exact (proj1 (setUnsubscribe_overwrites one_unsubscribed 0 None
                  (Some counting) eq_refl)).
Defined.

(** * Further properties of the classes *)

Section Runs.
Context {T Err U : Type}.
Implicit Types (s : State T Err U) (o : Observer T Err U) (this : ref)
  (w : World U) (h : IObserverHandlers T Err U).

(** ** The producer of [from] and what follows a subscription to it *)

(** The producer of [from] on any live Observer: the emissions, then the
    unsubscribe step of [complete], then the logging teardown is returned. *)
Lemma from_producer_spec (S : list T) (hp : list (Observer T Err U)) this o w :
  hp !! this = Some o ->
  isUnsubscribed o = false ->
  _subscribe (Observable_from S) this {| heap := hp; world := w |} =
    match emissions (handlers o) S w with
    | (Normal _, w1) =>
        match if_present (_unsubscribe o) w1 with
        | (Normal _, w2) =>
            Some (Normal (JsFunction (console_log "unsubscribed")),
                  {| heap := <[this := set_isUnsubscribed true o]> hp; world := w2 |})
        | (Thrown x, w2) =>
            Some (Thrown x,
                  {| heap := <[this := set_isUnsubscribed true o]> hp; world := w2 |})
        end
    | (Thrown x, w1) => Some (Thrown x, {| heap := hp; world := w1 |})
    end.
Proof.
  intros Ho Hlive. cbn [_subscribe Observable_from].
  unfold bind at 1. rewrite (forEach_next_delivers S hp this w Ho Hlive).
  unfold emissions, and_then, call at 1. cbn [heap world].
  destruct (deliver_each (handlers o) S w) as [[[]|x] w1]; [|done].
  unfold bind.
  rewrite (complete_spec {| heap := hp; world := w1 |} this Ho), Hlive.
  cbn [heap world].
  destruct (if_present (complete (handlers o)) w1) as [[[]|x] w2]; [|done].
  rewrite (unsubscribe_spec {| heap := hp; world := w2 |} this Ho).
  unfold call; cbn [heap world].
  by destruct (if_present (_unsubscribe o) w2) as [[[]|x] w3].
Qed.

(** A subscription to [from(S)] whose handlers all return. *)
Lemma subscribe_from_returns (S : list T) h s w :
  emissions h S (world s) = (Normal tt, w) ->
  Observable_subscribe (Observable_from S) h s =
    Some (Normal {| observer := length (heap s) |},
          {| heap := heap s ++
               [ {| handlers := h; isUnsubscribed := true;
                    _unsubscribe := Some (console_log "unsubscribed") |} ];
             world := w |}).
Proof.
  intros Hrun.
  assert (Ho : (heap s ++ [Observer_constructor h]) !! length (heap s)
               = Some (Observer_constructor h)) by by apply list_lookup_middle.
  rewrite subscribe_unfold, (from_producer_spec S _ _ (world s) Ho eq_refl).
  cbn [handlers Observer_constructor _unsubscribe if_present]. rewrite Hrun.
  rewrite insert_last.
  unfold Observer_setUnsubscribe, assign; cbn [heap world].
  rewrite list_lookup_middle by done.
  by rewrite insert_last.
Qed.

(** An unsubscribed Observer holding a logging teardown logs one more line
    at each [unsubscribe()]. *)
Lemma unsubscribe_logs (hp : list (Observer T Err U)) this o (msg : string) w (k : nat) :
  hp !! this = Some o ->
  isUnsubscribed o = true ->
  _unsubscribe o = Some (console_log msg) ->
  times k (Observer_unsubscribe this) {| heap := hp; world := w |} =
    Some (Normal tt, {| heap := hp; world := logged w (replicate k msg) |}).
Proof.
  intros Ho Hflag Htd. revert w. induction k as [|k IH]; intros w.
  - unfold logged; simpl. rewrite app_nil_r. by destruct w.
  - cbn [times]. unfold bind.
    rewrite (unsubscribe_spec {| heap := hp; world := w |} this Ho), Htd.
    unfold call; cbn.
    assert (Hsame : <[this := set_isUnsubscribed true o]> hp = hp).
    { apply list_insert_id. rewrite Ho. f_equal.
      destruct o as [ho fo uo]; simpl in *. by subst fo. }
    rewrite Hsame, IH. unfold logged; cbn.
    by rewrite <- app_assoc.
Qed.

(** X1: After a subscription to [from(S)], each [unsubscribe()] on the handle
    writes "unsubscribed" once more, and does nothing else: [k] calls leave
    [k] lines after whatever the handlers did, and the Observer as the
    subscription left it. *)
Theorem from_subscription_then_unsubscribe (S : list T) h s w (k : nat) :
  emissions h S (world s) = (Normal tt, w) ->
  (let! subscription := Observable_subscribe (Observable_from S) h in
   times k (Subscription_unsubscribe subscription)) s =
    Some (Normal tt,
          {| heap := heap s ++
               [ {| handlers := h; isUnsubscribed := true;
                    _unsubscribe := Some (console_log "unsubscribed") |} ];
             world := logged w (replicate k "unsubscribed"%string) |}).
Proof.
  intros Hrun. unfold bind. rewrite (subscribe_from_returns S h s Hrun).
  unfold Subscription_unsubscribe; cbn [observer].
  eapply unsubscribe_logs; [by apply list_lookup_middle | done | done].
Qed.

(** X2: An Observable made by [from] can be subscribed to again: the second
    subscription gets every element and the completion anew, on its own
    handlers and its own Observer, after the first one's. *)
Theorem from_resubscription_replays (values : list T) h1 h2 s w1 w2 :
  emissions h1 values (world s) = (Normal tt, w1) ->
  emissions h2 values w1 = (Normal tt, w2) ->
  (Observable_subscribe (Observable_from values) h1 ;;
   Observable_subscribe (Observable_from values) h2) s =
    Some (Normal {| observer := S (length (heap s)) |},
          {| heap := heap s ++
               [ {| handlers := h1; isUnsubscribed := true;
                    _unsubscribe := Some (console_log "unsubscribed") |};
                 {| handlers := h2; isUnsubscribed := true;
                    _unsubscribe := Some (console_log "unsubscribed") |} ];
             world := w2 |}).
Proof.
  intros Hfirst Hsecond. unfold bind.
  rewrite (subscribe_from_returns values h1 s Hfirst).
  erewrite (subscribe_from_returns values h2) by exact Hsecond. cbn [heap world].
  rewrite length_app, <- app_assoc. simpl.
  by rewrite Nat.add_1_r.
Qed.

(** X3: Without a [next] handler the elements are dropped one by one: whatever
    the sequence, the subscription runs as the one to [from([])] does, with
    the [complete] handler alone. *)
Theorem from_without_next_handler (S : list T) h s :
  next h = None ->
  Observable_subscribe (Observable_from S) h s =
  Observable_subscribe (Observable_from []) h s.
Proof.
  intros Hnone.
  assert (Ho : (heap s ++ [Observer_constructor h]) !! length (heap s)
               = Some (Observer_constructor h)) by by apply list_lookup_middle.
  rewrite !subscribe_unfold.
  rewrite !(from_producer_spec _ _ _ (world s) Ho eq_refl).
  cbn [handlers Observer_constructor].
  assert (Hdrop : forall w, deliver_each h S w = (Normal tt, w)).
  { induction S as [|v S IH]; intros w; [done|].
    cbn [deliver_each]. unfold and_then. rewrite Hnone. simpl. apply IH. }
  unfold emissions, and_then. by rewrite Hdrop.
Qed.

(** ** What method calls can and cannot change *)

Lemma next_leaves_heap s this (v : T) o :
  heap s !! this = Some o ->
  exists c w, Observer_next this v s = Some (c, {| heap := heap s; world := w |}).
Proof.
  intros Ho. rewrite (next_spec s this v Ho).
  destruct (isUnsubscribed o).
  - exists (Normal tt), (world s). by rewrite state_eta.
  - unfold call. destruct (if_present _ (world s)) as [c w]. by exists c, w.
Qed.

(** Apart from [setUnsubscribe], a method call changes at most the flag of
    its Observer, upwards. *)
Lemma invoke_heap_no_setter s this (c : MethodCall T Err U) result s' :
  is_setUnsubscribe c = false ->
  invoke this c s = Some (result, s') ->
  exists o, heap s !! this = Some o /\
    (heap s' = heap s \/
     heap s' = <[this := set_isUnsubscribed true o]> (heap s)).
Proof.
  intros Hc Hrun.
  destruct (invoke_heap _ _ _ Hrun) as (o & Ho & Hheap).
  exists o. split; [done|].
  assert (Hunsub : forall w result s',
    Observer_unsubscribe this {| heap := heap s; world := w |} = Some (result, s') ->
    heap s' = <[this := set_isUnsubscribed true o]> (heap s)).
  { intros w r0 s0. rewrite (unsubscribe_spec {| heap := heap s; world := w |} this Ho).
    unfold call; simpl. destruct (if_present _ w). by intros [= _ <-]. }
  destruct c as [v|e| | |f]; simpl in Hrun, Hc; [| | | |done].
  - left. destruct (next_leaves_heap s this v Ho) as (c0 & w0 & Hnext).
    rewrite Hnext in Hrun. by injection Hrun as _ <-.
  - rewrite (error_spec s this e Ho) in Hrun.
    destruct (isUnsubscribed o); [left; by injection Hrun as _ <-|].
    destruct (if_present _ (world s)) as [[[]|x] w]; [right; eauto|].
    left. by injection Hrun as _ <-.
  - rewrite (complete_spec s this Ho) in Hrun.
    destruct (isUnsubscribed o); [left; by injection Hrun as _ <-|].
    destruct (if_present _ (world s)) as [[[]|x] w]; [right; eauto|].
    left. by injection Hrun as _ <-.
  - right. apply (Hunsub (world s) result). by rewrite state_eta.
Qed.

(** X4: No method assigns [handlers]: after any calls on any Observers, every
    Observer that existed is still there with the handlers it was
    constructed with, and no Observer has appeared. *)
Theorem handlers_never_change (calls : list (ref * MethodCall T Err U)) s s' this o :
  history calls s = Some s' ->
  heap s !! this = Some o ->
  length (heap s') = length (heap s) /\
  exists o', heap s' !! this = Some o' /\ handlers o' = handlers o.
Proof.
  revert s o. induction calls as [|[other c] calls IH]; intros s o; simpl.
  - intros [= <-] Ho. eauto.
  - destruct (invoke other c s) as [[result s1]|] eqn:Hrun; [|done].
    intros Hrest Ho.
    assert (Hstep : length (heap s1) = length (heap s) /\
              exists o1, heap s1 !! this = Some o1 /\ handlers o1 = handlers o).
    { destruct (invoke_heap _ _ _ Hrun) as (oc & Hoc & [-> | [-> | [f ->]]]).
      - eauto.
      - rewrite length_insert. split; [done|].
        destruct (decide (other = this)) as [->|Hne].
        + rewrite list_lookup_insert_eq by (by eapply lookup_lt_Some).
          eexists. split; [done|]. simpl. congruence.
        + rewrite list_lookup_insert_ne by done. eauto.
      - rewrite length_insert. split; [done|].
        destruct (decide (other = this)) as [->|Hne].
        + rewrite list_lookup_insert_eq by (by eapply lookup_lt_Some).
          eexists. split; [done|]. simpl. congruence.
        + rewrite list_lookup_insert_ne by done. eauto. }
    destruct Hstep as (Hlen & o1 & Ho1 & Hh1).
    destruct (IH s1 o1 Hrest Ho1) as (Hlen' & o' & Ho' & Hh').
    split; [congruence|]. exists o'. split; [done|congruence].
Qed.

(** X5: Only [setUnsubscribe] on the Observer itself assigns its teardown slot:
    after any calls among which there is none of those, the Observer holds
    the teardown it held.  (The class of the earliest variant has no
    [setUnsubscribe]: there the slot stays [undefined] for good.) *)
Theorem teardown_slot_changes_only_by_setUnsubscribe
    (calls : list (ref * MethodCall T Err U)) s s' this o :
  Forall (fun rc => fst rc = this -> is_setUnsubscribe (snd rc) = false) calls ->
  history calls s = Some s' ->
  heap s !! this = Some o ->
  exists o', heap s' !! this = Some o' /\ _unsubscribe o' = _unsubscribe o.
Proof.
  intros Hcalls. revert s o.
  induction Hcalls as [|[other c] calls Hc _ IH]; intros s o; simpl in *.
  - intros [= <-] Ho. eauto.
  - destruct (invoke other c s) as [[result s1]|] eqn:Hrun; [|done].
    intros Hrest Ho.
    assert (Hstep : exists o1, heap s1 !! this = Some o1 /\
                               _unsubscribe o1 = _unsubscribe o).
    { destruct (decide (other = this)) as [->|Hne].
      - destruct (invoke_heap_no_setter _ _ _ (Hc eq_refl) Hrun)
          as (oc & Hoc & [-> | ->]); [eauto|].
        rewrite list_lookup_insert_eq by (by eapply lookup_lt_Some).
        eexists. split; [done|]. simpl. congruence.
      - destruct (invoke_heap _ _ _ Hrun) as (oc & Hoc & [-> | [-> | [f ->]]]);
          [eauto | rewrite list_lookup_insert_ne by done; eauto..]. }
    destruct Hstep as (o1 & Ho1 & Htd1).
    destruct (IH s1 o1 Hrest Ho1) as (o' & Ho' & Htd').
    exists o'. split; [done|congruence].
Qed.

(** ** Calls that end with an exception *)

(** X6: When [error], [complete] or [unsubscribe] ends with an exception, one
    of two things happened.  Either the handler threw: then the Observer was
    live, the call ended in the world the handler left, and the Observer is
    untouched, still live, its teardown not run.  Or the handler, if there
    was one to call, returned and the stored teardown threw on the world
    the handler left: then the Observer is unsubscribed all the same, the
    flag having gone up before the teardown was called. *)
Theorem terminating_call_throws s this o (c : MethodCall T Err U) (x : Err) s' :
  heap s !! this = Some o ->
  terminates c (Normal tt) = true ->
  invoke this c s = Some (Thrown x, s') ->
  (isUnsubscribed o = false /\ c <> CallUnsubscribe /\
   exists w,
     handler_call o c (world s) = (Thrown x, w) /\
     s' = {| heap := heap s; world := w |}) \/
  (exists td w,
     _unsubscribe o = Some td /\
     handler_call o c (world s) = (Normal tt, w) /\
     td w = (Thrown x, world s') /\
     heap s' = <[this := set_isUnsubscribed true o]> (heap s)).
Proof.
  intros Ho Hc Hrun.
  assert (Hunsub : forall w,
    Observer_unsubscribe this {| heap := heap s; world := w |} = Some (Thrown x, s') ->
    exists td, _unsubscribe o = Some td /\ td w = (Thrown x, world s') /\
      heap s' = <[this := set_isUnsubscribed true o]> (heap s)).
  { intros w. rewrite (unsubscribe_spec {| heap := heap s; world := w |} this Ho).
    unfold call; cbn [heap world].
    destruct (_unsubscribe o) as [td|]; simpl; [|done].
    destruct (td w) as [result w'] eqn:Htd. intros [= -> <-].
    by exists td. }
  destruct c as [v|e| | |f]; simpl in Hrun, Hc; try done.
  - rewrite (error_spec s this e Ho) in Hrun. cbn [handler_call].
    destruct (isUnsubscribed o); [done|].
    destruct (if_present _ (world s)) as [[[]|y] w].
    + right. destruct (Hunsub w Hrun) as (td & Htd & Hthrows & Hheap).
      by exists td, w.
    + left. injection Hrun as <- <-. split_and!; [done..|]. by exists w.
  - rewrite (complete_spec s this Ho) in Hrun. cbn [handler_call].
    destruct (isUnsubscribed o); [done|].
    destruct (if_present _ (world s)) as [[[]|y] w].
    + right. destruct (Hunsub w Hrun) as (td & Htd & Hthrows & Hheap).
      by exists td, w.
    + left. injection Hrun as <- <-. split_and!; [done..|]. by exists w.
  - right. rewrite <- (state_eta s) in Hrun.
    destruct (Hunsub (world s) Hrun) as (td & Htd & Hthrows & Hheap).
    by exists td, (world s).
Qed.

(** ** Emissions after the end *)

(** On an unsubscribed Observer emissions do nothing at all. *)
Lemma script_after_end this (calls : list (MethodCall T Err U)) s :
  unsubscribed_at this s ->
  Forall (fun c => is_emission c = true) calls ->
  script this calls s = Some (Normal tt, s).
Proof.
  intros (o & Ho & Hflag) Hcalls.
  induction Hcalls as [|c calls Hc _ IH]; [done|].
  cbn [script]. unfold bind.
  assert (Hnoop : invoke this c s = Some (Normal tt, s)).
  { destruct c as [v|e| | |f]; simpl in *; try done.
    - by rewrite (next_spec s this v Ho), Hflag.
    - by rewrite (error_spec s this e Ho), Hflag.
    - by rewrite (complete_spec s this Ho), Hflag. }
  by rewrite Hnoop.
Qed.

Lemma script_app this (pre post : list (MethodCall T Err U)) s :
  script this (pre ++ post) s = (script this pre ;; script this post) s.
Proof.
  revert s. induction pre as [|c pre IH]; intros s; simpl.
  - done.
  - unfold bind. destruct (invoke this c s) as [[[[]|x] s1]|]; [|done..].
    by rewrite IH.
Qed.

(** X7: A producer's emissions after its first [error()], [complete()] or
    [unsubscribe()] count for nothing: the run with them ends as the run
    cut off after that call does, in the same state and the same way, so
    no handler sees them and [error]/[complete] handlers run at most once
    between them. *)
Theorem emissions_after_the_end_are_dropped
    this (pre post : list (MethodCall T Err U)) (c : MethodCall T Err U) s :
  terminates c (Normal tt) = true ->
  Forall (fun c' => is_emission c' = true) post ->
  script this (pre ++ c :: post) s = script this (pre ++ [c]) s.
Proof.
  intros Hc Hpost. rewrite !script_app. unfold bind at 1 2.
  destruct (script this pre s) as [[[[]|x] s1]|]; [|done..].
  cbn [script]. unfold bind.
  destruct (invoke this c s1) as [[[[]|x] s2]|] eqn:Hrun; [|done..].
  apply script_after_end; [|done].
  by eapply terminates_unsubscribed.
Qed.

(** ** The teardown a subscription runs *)

(** X8: Whatever the producer did with its Observer, [unsubscribe()] on the
    handle that [subscribe] returned calls the function the producer
    returned, on the world as it is, with the flag up before the call. *)
Theorem unsubscribe_runs_returned_teardown
    (p : Observable T Err U) h s (td : Callback Err U) s1 o1 :
  _subscribe p (length (heap s))
    {| heap := heap s ++ [Observer_constructor h]; world := world s |}
    = Some (Normal (JsFunction td), s1) ->
  heap s1 !! length (heap s) = Some o1 ->
  (let! subscription := Observable_subscribe p h in
   Subscription_unsubscribe subscription) s =
    call td {| heap := <[length (heap s) :=
                           {| handlers := handlers o1; isUnsubscribed := true;
                              _unsubscribe := Some td |}]> (heap s1);
               world := world s1 |}.
Proof.
  intros Hrun Ho1. unfold bind.
  rewrite subscribe_unfold, Hrun, function_or_undefined_function.
  rewrite (setUnsubscribe_spec s1 _ (Some td) Ho1).
  unfold Subscription_unsubscribe; cbn [observer].
  erewrite unsubscribe_spec; last first.
  { cbn [heap]. apply list_lookup_insert_eq. by eapply lookup_lt_Some. }
  cbn [heap world _unsubscribe set__unsubscribe if_present].
  by rewrite list_insert_insert_eq.
Qed.

End Runs.

Local Open Scope string_scope.

Lemma next_after_termination_is_noop_witness :
  let ended := {| heap := [ {| handlers := logging; isUnsubscribed := true;
                               _unsubscribe := Some (failing "stuck") |} ];
                  world := {| console := ["error boom"]; store := 0 |} |} in
  (Observer_error 0 "boom" one_with_failing_teardown = Some (Thrown "stuck", ended) /\
   history [(0, CallNext "x"); (0, CallUnsubscribe)] ended = Some ended) /\
  Observer_next 0 "late" ended = Some (Normal tt, ended).
Proof.
  intros ended. split; [by split|].
  destruct (@next_after_termination_is_noop string string nat
              one_with_failing_teardown 0
              {| handlers := logging; isUnsubscribed := false;
                 _unsubscribe := Some (failing "stuck") |}
              (CallError "boom") (Thrown "stuck") ended
              eq_refl eq_refl eq_refl) as [Hnoop _].
  apply (Hnoop (or_intror eq_refl) [(0, CallNext "x"); (0, CallUnsubscribe)]).
  reflexivity.
Defined.

(** C4 as stated fails: on a live Observer whose error handler throws,
    [error("boom")] ends with the exception and leaves the flag down; the
    [next("late")] that follows is delivered to the [next] handler. *)
Lemma next_delivered_after_error_handler_threw :
  let after := {| heap := heap one_with_failing_handlers;
                  world := {| console := []; store := 1 |} |} in
  Observer_error 0 "boom" one_with_failing_handlers = Some (Thrown "boom", after) /\
  Observer_next 0 "late" after =
    Some (Normal tt,
          {| heap := heap one_with_failing_handlers;
             world := {| console := ["next late"]; store := 1 |} |}) /\
  Observer_next 0 "late" after <> Some (Normal tt, after).
Proof. split_and!; [reflexivity | reflexivity | discriminate]. Qed.

Lemma error_and_complete_terminate_witness :
  Observer_error 0 "boom" one_active = Some (Normal tt, one_errored) /\
  Observer_error 0 "again" one_errored = Some (Normal tt, one_errored) /\
  Observer_complete 0 one_active =
    Some (Normal tt,
          {| heap := heap one_errored;
             world := {| console := ["complete"]; store := 1 |} |}).
Proof.
  destruct (error_and_complete_terminate one_active 0 "boom" eq_refl eq_refl)
    as (Herr & _ & Hcompl & _ & Hafter & _).
  split_and!.
  - rewrite (Herr _ _ eq_refl eq_refl). reflexivity.
  - destruct (Hafter {| console := ["error boom"]; store := 0 |})
      as (result & s' & Hrun & _ & Hagain & _).
    injection Hrun as _ <-. apply Hagain.
  - rewrite (Hcompl _ _ eq_refl eq_refl). reflexivity.
Defined.

(** C5 as stated fails: on a live Observer whose error handler counts and
    throws, [error("boom")] ends with the exception, the Observer is not
    unsubscribed and its teardown has logged nothing; a second [error] is
    no no-op: it calls the handler again, and the counter is at 2. *)
Lemma error_handler_throw_leaves_observer_live :
  let after := {| heap := heap one_with_failing_handlers;
                  world := {| console := []; store := 1 |} |} in
  Observer_error 0 "boom" one_with_failing_handlers = Some (Thrown "boom", after) /\
  ~ unsubscribed_at 0 after /\
  Observer_error 0 "again" after =
    Some (Thrown "again",
          {| heap := heap one_with_failing_handlers;
             world := {| console := []; store := 2 |} |}) /\
  Observer_error 0 "again" after <> Some (Normal tt, after).
Proof.
  split_and!; [reflexivity | | reflexivity | discriminate].
  intros (o & Ho & Hflag). injection Ho as <-. discriminate.
Qed.

Lemma unsubscribe_runs_teardown_each_time_witness :
  times 3 (Observer_unsubscribe 0) one_active =
    Some (Normal tt,
          {| heap := heap one_unsubscribed;
             world := {| console := []; store := 3 |} |}).
Proof.
  exact (unsubscribe_runs_teardown_each_time one_active 0 2 eq_refl
           (fun _ => eq_refl)).
Defined.

(** C1 as stated fails: on an Observer with a counting teardown, two
    [unsubscribe()] calls return with the counter at 2, not 1; the second
    call ran the teardown again. *)
Lemma unsubscribe_twice_runs_teardown_twice :
  exists s',
    (Observer_unsubscribe 0 ;; Observer_unsubscribe 0) one_active
      = Some (Normal tt, s') /\
    store (world s') = 2 /\
    store (world s') <> 1.
Proof. eexists. split; [reflexivity|]. by split. Qed.

Lemma teardown_after_synchronous_termination_is_stored_witness :
  let s2 := {| heap := [ {| handlers := logging; isUnsubscribed := true;
                            _unsubscribe := Some counting |} ];
               world := {| console := ["complete"]; store := 0 |} |} in
  Observable_subscribe (completes_then_returns counting) logging nothing_yet
    = Some (Normal {| observer := 0 |}, s2) /\
  Subscription_unsubscribe {| observer := 0 |} s2 = call counting s2.
Proof.
  exact (teardown_after_synchronous_termination_is_stored
           (completes_then_returns counting) logging nothing_yet
           (td:=counting)
           (s1:={| heap := [ {| handlers := logging; isUnsubscribed := true;
                                _unsubscribe := None |} ];
                   world := {| console := ["complete"]; store := 0 |} |})
           eq_refl eq_refl eq_refl).
Defined.

(** C2 as stated fails: the producer completes and then returns a counting
    teardown; when [subscribe] has returned the Observer is unsubscribed
    and holds the teardown, and the counter is still 0: registering it did
    not invoke it. *)
Lemma teardown_not_invoked_at_registration :
  exists s',
    Observable_subscribe (completes_then_returns counting) logging nothing_yet
      = Some (Normal {| observer := 0 |}, s') /\
    unsubscribed_at 0 s' /\
    store (world s') = 0 /\
    store (world s') <> 1.
Proof.
  eexists. split; [reflexivity|]. split; [|by split].
  eexists. by split.
Qed.

Lemma producer_throw_propagates_witness :
  Observable_subscribe emits_then_throws logging nothing_yet =
    Some (Thrown "boom",
          {| heap := [Observer_constructor logging];
             world := {| console := ["next a"]; store := 0 |} |}).
Proof.
  exact (producer_throw_propagates emits_then_throws logging nothing_yet eq_refl).
Defined.

Lemma non_function_return_is_ignored_witness :
  let s2 := {| heap := [Observer_constructor logging];
               world := {| console := ["next a"]; store := 0 |} |} in
  typeof (JsNumber (Err:=string) (U:=nat) 42) <> "function" /\
  Observable_subscribe emits_then_returns_number logging nothing_yet
    = Some (Normal {| observer := 0 |}, s2) /\
  Subscription_unsubscribe {| observer := 0 |} s2 =
    Some (Normal tt,
          {| heap := [ {| handlers := logging; isUnsubscribed := true;
                          _unsubscribe := None |} ];
             world := {| console := ["next a"]; store := 0 |} |}).
Proof.
  intros s2. split; [done|].
  exact (non_function_return_is_ignored emits_then_returns_number logging
           nothing_yet (v:=JsNumber 42)
           (s1:={| heap := [Observer_constructor logging];
                   world := {| console := ["next a"]; store := 0 |} |})
           eq_refl ltac:(done) eq_refl).
Defined.

Lemma emits_then_returns_confined v : confined (_subscribe (emits_then_returns v)).
Proof.
  apply own_only_confined. intros this. cbn [_subscribe emits_then_returns].
  apply own_only_bind.
  - apply (own_only_invoke this (CallNext "a")).
  - intros _. apply own_only_ret.
Qed.

Lemma subscriptions_are_independent_witness :
  let live := {| handlers := logging; isUnsubscribed := false;
                 _unsubscribe := Some counting |} in
  let s1 := {| heap := [live];
               world := {| console := ["next a"]; store := 0 |} |} in
  let s2 := {| heap := [live; live];
               world := {| console := ["next a"; "next a"]; store := 0 |} |} in
  let s3 := {| heap := [set_isUnsubscribed true live; live];
               world := {| console := ["next a"; "next a"]; store := 1 |} |} in
  (Observable_subscribe (emits_then_returns (JsFunction counting)) logging nothing_yet
     = Some (Normal {| observer := 0 |}, s1) /\
   Observable_subscribe (emits_then_returns (JsFunction counting)) logging s1
     = Some (Normal {| observer := 1 |}, s2) /\
   history [(0, CallUnsubscribe)] s2 = Some s3) /\
  0 <> 1 /\
  heap s3 !! 1 = heap s2 !! 1 /\
  outcome (Observer_next 1 "b" {| heap := heap s3; world := world s3 |}) =
  outcome (Observer_next 1 "b" {| heap := heap s2; world := world s3 |}).
Proof.
  intros live s1 s2 s3. split; [by split_and!|].
  destruct (subscriptions_are_independent
              (emits_then_returns (JsFunction counting)) logging logging
              nothing_yet (sub1:={| observer := 0 |}) (s1:=s1)
              (sub2:={| observer := 1 |}) (s2:=s2)
              (emits_then_returns_confined _) eq_refl eq_refl)
    as (Hne & _ & _ & _ & _ & _ & Hframe).
  destruct (Hframe 1 (or_intror eq_refl) [(0, CallUnsubscribe)] s3
              ltac:(by repeat constructor) eq_refl) as [Hsame Hcalls].
  split_and!; [exact Hne | exact Hsame |].
  exact (Hcalls (CallNext "b") (world s3)).
Defined.

(** ** Runs *)

(** The program of the file prints "complete" during [subscribe] and
    "unsubscribed" at the explicit [unsubscribe()] that follows. *)
Example main_output now :
  outcome (main now initial) =
    Some (Normal tt, {| console := ["complete"; "unsubscribed"]; store := tt |}).
Proof. reflexivity. Qed.

Example from_logged :
  outcome (Observable_subscribe (Observable_from ["a"; "b"; "c"]) logging nothing_yet)
  = Some (Normal {| observer := 0 |},
          {| console := ["next a"; "next b"; "next c"; "complete"]; store := 0 |}).
Proof. reflexivity. Qed.

(** [unsubscribe()] on an Observer that never emitted: a later [next] runs
    no handler. *)
Example unsubscribe_fresh_then_next :
  (Observer_unsubscribe 0 ;; Observer_next 0 "a")
    {| heap := [Observer_constructor logging];
       world := {| console := []; store := 0 |} |}
  = Some (Normal tt,
          {| heap := [ {| handlers := logging; isUnsubscribed := true;
                          _unsubscribe := None |} ];
             world := {| console := []; store := 0 |} |}).
Proof. reflexivity. Qed.

(** A second [unsubscribe()] after [from] has completed logs again. *)
Example from_unsubscribed_twice :
  outcome ((let! subscription :=
              Observable_subscribe (Observable_from ["a"]) logging in
            Subscription_unsubscribe subscription ;;
            Subscription_unsubscribe subscription) nothing_yet)
  = Some (Normal tt,
          {| console := ["next a"; "complete"; "unsubscribed"; "unsubscribed"];
             store := 0 |}).
Proof. reflexivity. Qed.

(** An error handler that throws leaves the Observer live: [error] ends
    with the handler's exception before it reaches [unsubscribe]. *)
Example error_handler_throw_keeps_active :
  let s := {| heap := [Observer_constructor error_handler_throws];
              world := {| console := []; store := 0 |} |} in
  Observer_error 0 "boom" s = Some (Thrown "boom", s) /\
  outcome (Observer_next 0 "a" s)
    = Some (Normal tt, {| console := ["next a"]; store := 0 |}).
Proof. by split. Qed.

(** ** The further properties at work *)

Lemma from_subscription_then_unsubscribe_witness :
  emissions logging ["a"; "b"] (world nothing_yet)
    = (Normal tt, {| console := ["next a"; "next b"; "complete"]; store := 0 |}) /\
  (let! subscription := Observable_subscribe (Observable_from ["a"; "b"]) logging in
   times 2 (Subscription_unsubscribe subscription)) nothing_yet =
    Some (Normal tt,
          {| heap := [ {| handlers := logging; isUnsubscribed := true;
                          _unsubscribe := Some (console_log "unsubscribed") |} ];
             world := {| console := ["next a"; "next b"; "complete";
                                     "unsubscribed"; "unsubscribed"];
                         store := 0 |} |}).
Proof.
  split; [reflexivity|].
  exact (from_subscription_then_unsubscribe ["a"; "b"] logging nothing_yet 2 eq_refl).
Defined.

Lemma from_resubscription_replays_witness :
  (Observable_subscribe (Observable_from ["a"]) logging ;;
   Observable_subscribe (Observable_from ["a"]) logging) nothing_yet =
    Some (Normal {| observer := 1 |},
          {| heap := [ {| handlers := logging; isUnsubscribed := true;
                          _unsubscribe := Some (console_log "unsubscribed") |};
                       {| handlers := logging; isUnsubscribed := true;
                          _unsubscribe := Some (console_log "unsubscribed") |} ];
             world := {| console := ["next a"; "complete"; "next a"; "complete"];
                         store := 0 |} |}).
Proof.
  exact (from_resubscription_replays ["a"] logging logging nothing_yet
           eq_refl eq_refl).
Defined.

Lemma from_without_next_handler_witness :
  Observable_subscribe (Observable_from ["a"; "b"]) no_handlers nothing_yet =
  Observable_subscribe (Observable_from []) no_handlers nothing_yet.
Proof.
  exact (from_without_next_handler ["a"; "b"] no_handlers nothing_yet eq_refl).
Defined.

Lemma handlers_never_change_witness :
  exists o',
    heap {| heap := [ {| handlers := logging; isUnsubscribed := true;
                         _unsubscribe := None |} ];
            world := {| console := ["error boom"]; store := 1 |} |} !! 0
      = Some o' /\
    handlers o' = logging.
Proof.
  exact (proj2 (handlers_never_change
                  [(0, CallError "boom"); (0, CallSetUnsubscribe None)]
                  one_active 0 eq_refl eq_refl)).
Defined.

Lemma teardown_slot_changes_only_by_setUnsubscribe_witness :
  exists o',
    heap {| heap := [ {| handlers := logging; isUnsubscribed := true;
                         _unsubscribe := Some counting |} ];
            world := {| console := ["next x"; "complete"]; store := 1 |} |} !! 0
      = Some o' /\
    _unsubscribe o' = Some counting.
Proof.
  apply (teardown_slot_changes_only_by_setUnsubscribe
           (calls:=[(0, CallNext "x"); (0, CallComplete)]) (this:=0)
           one_active
           (s':={| heap := [ {| handlers := logging; isUnsubscribed := true;
                                _unsubscribe := Some counting |} ];
                   world := {| console := ["next x"; "complete"]; store := 1 |} |})
           (o:={| handlers := logging; isUnsubscribed := false;
                  _unsubscribe := Some counting |})).
  - by repeat constructor.
  - reflexivity.
  - reflexivity.
Defined.

Lemma terminating_call_throws_witness :
  Observer_unsubscribe 0 one_with_failing_teardown =
    Some (Thrown "stuck",
          {| heap := [ {| handlers := logging; isUnsubscribed := true;
                          _unsubscribe := Some (failing "stuck") |} ];
             world := {| console := []; store := 0 |} |}) /\
  exists td w,
    Some (failing "stuck") = Some td /\
    td w = (Thrown "stuck", {| console := []; store := 0 |}).
Proof.
  split; [reflexivity|].
  destruct (terminating_call_throws one_with_failing_teardown 0 CallUnsubscribe
              eq_refl eq_refl eq_refl)
    as [(_ & Hne & _) | (td & w & Htd & _ & Hthrows & _)]; [done|].
  by exists td, w.
Defined.

Lemma emissions_after_the_end_are_dropped_witness :
  script 0 ([CallNext "a"] ++ CallError "boom" :: [CallNext "b"; CallComplete])
    one_active
  = script 0 ([CallNext "a"] ++ [CallError "boom"]) one_active.
Proof.
  apply (@emissions_after_the_end_are_dropped string string nat 0
           [CallNext "a"] [CallNext "b"; CallComplete] (CallError "boom")
           one_active).
  - reflexivity.
  - by repeat constructor.
Defined.

Lemma unsubscribe_runs_returned_teardown_witness :
  (let! subscription :=
     Observable_subscribe (emits_then_returns (JsFunction counting)) logging in
   Subscription_unsubscribe subscription) nothing_yet =
    Some (Normal tt,
          {| heap := [ {| handlers := logging; isUnsubscribed := true;
                          _unsubscribe := Some counting |} ];
             world := {| console := ["next a"]; store := 1 |} |}).
Proof.
  exact (unsubscribe_runs_returned_teardown
           (emits_then_returns (JsFunction counting)) logging nothing_yet
           (td:=counting)
           (s1:={| heap := [Observer_constructor logging];
                   world := {| console := ["next a"]; store := 0 |} |})
           eq_refl eq_refl).
Defined.
